(** * SimpleMDP: the two-state MDP of mellowmax_softmax/envs/simple_mdp.py

    A shallow embedding of the [SimpleMDP] environment class and the
    verification of its step/reset contract.

    Conventions of the embedding:
    - Python floats whose values are decimal literals of the source are read
      as the rationals they denote ([0.66] is [66/100]); the engine only
      looks rewards up and compares probabilities with a uniform draw, it
      never does arithmetic on rewards.
    - The engine object is a record; a method takes the record and returns
      the record after the call together with what the call produced, so
      that a raised exception and the state it leaves behind are both
      visible.
    - [logger.warn] is modelled by the list of messages a call emits.
    - The pseudo-random bit generator is a parameter of the development. *)

From Stdlib Require Import ZArith QArith Qabs Qround List String Bool Lia.
Import ListNotations.

Local Open Scope Z_scope.

(** ** Exceptions the calls can raise *)

Inductive exn : Type :=
| AssertionError (msg : option string)
| IndexError
| ValueError (msg : string)
| TypeError (msg : string).

(** ** gym.spaces.Discrete *)

Inductive Space : Type :=
| Discrete (n : Z).

(** [Discrete(n).contains(x)] for an integer [x]. *)
Definition contains (sp : Space) (x : Z) : bool :=
  match sp with
  | Discrete n => (0 <=? x) && (x <? n)
  end.

(** ** Indexing of Python lists and numpy arrays

    A negative index counts from the end; an index out of range raises
    [IndexError], which is [None] here. *)

Definition getitem {A : Type} (l : list A) (i : Z) : option A :=
  let n := Z.of_nat (List.length l) in
  if (0 <=? i) && (i <? n) then nth_error l (Z.to_nat i)
  else if (- n <=? i) && (i <? 0) then nth_error l (Z.to_nat (i + n))
  else None.

(** [arr[i][j]] and [arr[i, j]]. *)
Definition getitem2 {A : Type} (arr : list (list A)) (i j : Z) : option A :=
  match getitem arr i with
  | Some row => getitem row j
  | None => None
  end.

(** [arr[i, j, :]]. *)
Definition getitem3 (arr : list (list (list Q))) (i j : Z) : option (list Q) :=
  getitem2 arr i j.

(** ** numpy: cumulative sums and binary search on a sorted array *)

Fixpoint cumsum_from (acc : Q) (p : list Q) : list Q :=
  match p with
  | [] => []
  | x :: p' => (acc + x)%Q :: cumsum_from (acc + x)%Q p'
  end.

Definition cumsum (p : list Q) : list Q :=
  match p with
  | [] => []
  | x :: p' => x :: cumsum_from x p'
  end.

(** [a.searchsorted(v, side='right')] on a sorted [a]: the first index whose
    entry is greater than [v], the length when there is none. *)
Fixpoint searchsorted_right (a : list Q) (v : Q) : Z :=
  match a with
  | [] => 0
  | c :: a' => if Qle_bool c v then 1 + searchsorted_right a' v else 0
  end.

Definition Qlt_bool (x y : Q) : bool := negb (Qle_bool y x).

Definition Qsum (p : list Q) : Q := fold_left Qplus p 0%Q.

(** Tolerance of the sum check of [choice]: the square root of the float64
    machine epsilon, [2^-26]. *)
Definition atol : Q := 1 # 67108864.

(** The checks [choice] makes on the probabilities [p] before it samples:
    the exception raised, if any. *)
Definition check_p (a : Z) (p : list Q) : option exn :=
  if negb (Z.of_nat (List.length p) =? a) then
    Some (ValueError "a and p must have same size")
  else if existsb (fun x => Qlt_bool x 0) p then
    Some (ValueError "probabilities are not non-negative")
  else if Qlt_bool atol (Qabs (Qsum p - 1)) then
    Some (ValueError "probabilities do not sum to 1")
  else None.

(** The normalised cumulative distribution [cdf = p.cumsum(); cdf /= cdf[-1]]. *)
Definition cdf_of (p : list Q) : list Q :=
  let cdf := cumsum p in
  map (fun c => (c / last cdf 1)%Q) cdf.

(** ** Messages *)

Definition not_reset_msg : string := "Call reset before using step method.".

Definition steps_beyond_done_msg : string :=
  "You are calling 'step()' even though this environment has already returned done = True. You should always call 'reset()' once you receive 'done = True' -- any further steps are undefined behavior.".

Definition render_msg : string := "This environment doesn't support rendering.".

(** The two assertions of [step], by the names the specification gives to
    the failures. *)
Definition InvalidActionError : exn := AssertionError None.
Definition NotResetError : exn := AssertionError (Some not_reset_msg).

(** The [info] mapping returned by [step] and [reset]; always [{}]. *)
Definition info : Type := list (string * string).

(** One entry [(probability, next_state, reward, done)] of the table
    [self.P]. *)
Definition P_entry : Type := (Q * Z * Q * bool)%type.

Definition P_table : Type := list (Z * list (Z * list P_entry)).

Fixpoint assoc {A : Type} (k : Z) (d : list (Z * A)) : option A :=
  match d with
  | [] => None
  | (k', v) :: d' => if k =? k' then Some v else assoc k d'
  end.

(** [self.P[s][a]]. *)
Definition P_lookup (P : P_table) (s a : Z) : option (list P_entry) :=
  match assoc s P with
  | Some row => assoc a row
  | None => None
  end.

(** A sample bit generator for concrete runs: a 64-bit linear congruential
    generator whose output is its state. *)
Module Lcg.
Definition t : Type := Z.
Definition next_uint64 (g : t) : Z * t :=
  (g, (g * 6364136223846793005 + 1442695040888963407) mod 2 ^ 64).
Definition seeded (k : N) : t := Z.of_N k mod 2 ^ 64.
(** A generator state whose first uniform draw is above 0.99. *)
Definition high : t := 2 ^ 64 - 1.
End Lcg.

(** A transition tensor whose row for S1 and action 0 sums to 0.9. *)
Definition short_row : list (list (list Q)) :=
  [[[0.56; 0.34]; [0.99; 0.01]]; [[0.0; 1.0]; [0.0; 1.0]]]%Q.

Section Engine.

(** The bit generator behind [self.np_random]: its state, the next 64-bit
    output together with the advanced state, and the state a seed gives. *)
Variable BitGenerator : Type.
Variable next_uint64 : BitGenerator -> Z * BitGenerator.
Variable seeded : N -> BitGenerator.

(** [Generator.random()]: a double in [0, 1) made of the top 53 bits of
    one 64-bit output. *)
Definition random (g : BitGenerator) : Q * BitGenerator :=
  let '(x, g') := next_uint64 g in
  (Z.shiftr (x mod 2 ^ 64) 11 # 9007199254740992, g').

(** [Generator.choice(a, p=p)] for an integer [a] and no [size]: the
    checks on [p], then inverse-CDF sampling with one uniform draw. *)
Definition choice (g : BitGenerator) (a : Z) (p : list Q)
  : exn + (Z * BitGenerator) :=
  match check_p a p with
  | Some e => inl e
  | None =>
    let '(u, g') := random g in
    inr (searchsorted_right (cdf_of p) u, g')
  end.

(** ** The engine *)

Record SimpleMDP : Type := mkSimpleMDP {
  action_space : Space;
  observation_space : Space;
  state : option Z;
  transition : list (list (list Q));
  P : P_table;
  reward : list (list Q);
  steps_beyond_done : option Z;
  _np_random : option BitGenerator
}.

Definition set_state (self : SimpleMDP) (s : option Z) : SimpleMDP :=
  mkSimpleMDP (action_space self) (observation_space self) s
    (transition self) (P self) (reward self) (steps_beyond_done self)
    (_np_random self).

Definition set_steps_beyond_done (self : SimpleMDP) (c : option Z)
  : SimpleMDP :=
  mkSimpleMDP (action_space self) (observation_space self) (state self)
    (transition self) (P self) (reward self) c (_np_random self).

Definition set_np_random (self : SimpleMDP) (g : option BitGenerator)
  : SimpleMDP :=
  mkSimpleMDP (action_space self) (observation_space self) (state self)
    (transition self) (P self) (reward self) (steps_beyond_done self) g.

(** [SimpleMDP.__init__]; it takes no argument besides [self]. *)
Definition __init__ : SimpleMDP :=
  {| action_space := Discrete 2;
     observation_space := Discrete 2;
     state := None;
     transition := [[[0.66; 0.34]; [0.99; 0.01]];
                    [[0.0; 1.0]; [0.0; 1.0]]]%Q;
     P := [(0, [(0, [(0.66%Q, 0, 0.122%Q, false);
                     (0.34%Q, 1, 0.122%Q, true)]);
                (1, [(0.99%Q, 0, 0.033%Q, false);
                     (0.01%Q, 1, 0.033%Q, true)])]);
           (1, [(0, [(0%Q, 0, 0%Q, false); (1%Q, 1, 0%Q, true)]);
                (1, [(0%Q, 0, 0%Q, false); (1%Q, 1, 0%Q, true)])])];
     reward := [[0.122; 0.033]; [0.0; 0.0]]%Q;
     steps_beyond_done := None;
     _np_random := None |}.

(** The [np_random] property of [gym.Env]: the generator of the engine,
    created on first use from operating-system entropy when no seed was
    ever given.  [entropy] is the generator that creation would yield. *)
Definition np_random (self : SimpleMDP) (entropy : BitGenerator)
  : BitGenerator :=
  match _np_random self with
  | Some g => g
  | None => entropy
  end.

(** [gym.Env.reset(seed=seed)]: a given seed replaces the generator. *)
Definition Env_reset (self : SimpleMDP) (seed : option N) : SimpleMDP :=
  match seed with
  | Some k => set_np_random self (Some (seeded k))
  | None => self
  end.

(** What one [step] call leaves behind and produces: the engine after the
    call, the warnings it logged, and the exception raised or the tuple
    [(observation, reward, done, info)] returned. *)
Definition step_result : Type :=
  (SimpleMDP * list string * (exn + (Z * Q * bool * info)))%type.

(** [SimpleMDP.step]. *)
Definition step (self : SimpleMDP) (entropy : BitGenerator) (action : Z)
  : step_result :=
  if negb (contains (action_space self) action) then
    (self, [], inl (AssertionError None))
  else
    match state self with
    | None => (self, [], inl (AssertionError (Some not_reset_msg)))
    | Some s =>
      let g := np_random self entropy in
      let self := set_np_random self (Some g) in
      match getitem3 (transition self) s action with
      | None => (self, [], inl IndexError)
      | Some p =>
        match choice g 2 p with
        | inl e => (self, [], inl e)
        | inr (s', g') =>
          let self := set_state (set_np_random self (Some g')) (Some s') in
          match getitem2 (reward self) s' action with
          | None => (self, [], inl IndexError)
          | Some r =>
            let done := s' =? 1 in
            if done then
              match steps_beyond_done self with
              | None =>
                (set_steps_beyond_done self (Some 0), [],
                 inr (s', r, done, []))
              | Some n =>
                (set_steps_beyond_done self (Some (n + 1)),
                 if n =? 0 then [steps_beyond_done_msg] else [],
                 inr (s', 0.0%Q, done, []))
              end
            else (self, [], inr (s', r, done, []))
          end
        end
      end
    end.

(** [SimpleMDP.reset]: the observation alone, or the observation with the
    [info] mapping when [return_info] is set. *)
Definition reset (self : SimpleMDP) (seed : option N) (return_info : bool)
  : SimpleMDP * (Z + Z * info) :=
  let self := Env_reset self seed in
  let self := set_state self (Some 0) in
  let self := set_steps_beyond_done self None in
  if negb return_info then (self, inl 0)
  else (self, inr (0, [])).

(** [SimpleMDP.render]. *)
Definition render (self : SimpleMDP) (mode : string)
  : SimpleMDP * list string :=
  (self, [render_msg]).

(** The constructor call [SimpleMDP(name=tensor, ...)].  [__init__]
    declares no parameter besides [self]: binding the arguments of a call that passes
    one raises [TypeError] before the body runs; the body of a call
    without arguments raises nothing.  A keyword argument is its name and
    the tensor passed under it. *)
Definition SimpleMDP_new (kwargs : list (string * list (list (list Q))))
  : exn + SimpleMDP :=
  match kwargs with
  | [] => inr __init__
  | (name, _) :: _ => inl (TypeError name)
  end.

(** ** Sequences of calls *)

Inductive call : Type :=
| Step (entropy : BitGenerator) (action : Z)
| Reset (seed : option N) (return_info : bool)
| Render (mode : string).

(** The engine after one call, whether the call returned or raised. *)
Definition after (self : SimpleMDP) (c : call) : SimpleMDP :=
  match c with
  | Step entropy action => fst (fst (step self entropy action))
  | Reset seed return_info => fst (reset self seed return_info)
  | Render mode => fst (render self mode)
  end.

Definition after_all (self : SimpleMDP) (calls : list call) : SimpleMDP :=
  fold_left after calls self.

(** The engines a program can hold: the constructed one, and those that
    calls make of it. *)
Inductive reachable : SimpleMDP -> Prop :=
| reachable_init : reachable __init__
| reachable_call (self : SimpleMDP) (c : call) :
    reachable self -> reachable (after self c).

(** What a [step] call shows its caller: the warnings logged and the
    exception or the returned tuple. *)
Definition outcome : Type :=
  (list string * (exn + (Z * Q * bool * info)))%type.

(** [step] called with each action of [actions] in turn; a call that
    raises is caught and the run goes on. *)
Fixpoint run (self : SimpleMDP) (entropy : BitGenerator) (actions : list Z)
  : SimpleMDP * list outcome :=
  match actions with
  | [] => (self, [])
  | action :: rest =>
    let '(self1, log, res) := step self entropy action in
    let '(self2, outs) := run self1 entropy rest in
    (self2, (log, res) :: outs)
  end.

Definition is_done (o : outcome) : bool :=
  match snd o with
  | inr (_, _, done, _) => done
  | inl _ => false
  end.

(** The number of calls of a run that returned [done = True]. *)
Definition count_done (outs : list outcome) : Z :=
  Z.of_nat (List.length (filter is_done outs)).

(** Everything a run logged. *)
Definition logged (outs : list outcome) : list string :=
  List.concat (map fst outs).

(** A row that is a probability distribution: non-negative entries that
    sum to one. *)
Definition is_distribution (row : list Q) : bool :=
  forallb (fun x => Qle_bool 0 x) row && Qeq_bool (Qsum row) 1.

Definition rows_are_distributions (t : list (list (list Q))) : bool :=
  forallb (forallb is_distribution) t.

(** The engine invariant: the model is the one [__init__] installed, and
    the episode is unstarted, running in S1 with the counter unset, or
    ended in S2 with the counter set. *)
Definition model_ok (self : SimpleMDP) : Prop :=
  action_space self = Discrete 2 /\
  observation_space self = Discrete 2 /\
  transition self = transition __init__ /\
  P self = P __init__ /\
  reward self = reward __init__.

Definition episode_ok (self : SimpleMDP) : Prop :=
  (state self = None /\ steps_beyond_done self = None) \/
  (state self = Some 0 /\ steps_beyond_done self = None) \/
  (state self = Some 1 /\
   exists n, 0 <= n /\ steps_beyond_done self = Some n).

Definition inv (self : SimpleMDP) : Prop :=
  model_ok self /\ episode_ok self.

(** The probability [transition[0, action, 0]] of staying in S1. *)
Definition stay (action : Z) : Q :=
  if action =? 0 then 0.66%Q else 0.99%Q.

(** The reward [reward[0][action]] of S1. *)
Definition reward_S1 (action : Z) : Q :=
  if action =? 0 then 0.122%Q else 0.033%Q.

(** The engine a step leaves in S2, and what the step returns there. *)
Definition landed_S2 (self : SimpleMDP) (g' : BitGenerator) : step_result :=
  let self1 := set_state (set_np_random self (Some g')) (Some 1) in
  match steps_beyond_done self with
  | None =>
    (set_steps_beyond_done self1 (Some 0), [], inr (1, 0.0%Q, true, []))
  | Some n =>
    (set_steps_beyond_done self1 (Some (n + 1)),
     if n =? 0 then [steps_beyond_done_msg] else [],
     inr (1, 0.0%Q, true, []))
  end.

Ltac canonical self H :=
  destruct self as [asp osp st tr Pt rw sbd rng];
  destruct H as (Hasp & Hosp & Htr & HPt & Hrw);
  cbn [action_space observation_space transition P reward] in Hasp, Hosp,
    Htr, HPt, Hrw;
  subst asp osp tr Pt rw.

(** The observation a [reset] call returned. *)
Definition observation (r : Z + Z * info) : Z :=
  match r with
  | inl obs => obs
  | inr (obs, _) => obs
  end.

(** [reset] called once per entry of [args], a seed and a [return_info]
    flag each; the observations returned, in order. *)
Fixpoint reset_all (self : SimpleMDP) (args : list (option N * bool))
  : SimpleMDP * list Z :=
  match args with
  | [] => (self, [])
  | (seed, return_info) :: rest =>
    let '(self1, r) := reset self seed return_info in
    let '(self2, obs) := reset_all self1 rest in
    (self2, observation r :: obs)
  end.

(** What [step] returns to a caller who passes [action] while the engine
    is in S2. *)
Definition terminal_outcome (action : Z) : exn + (Z * Q * bool * info) :=
  if contains (Discrete 2) action then inr (1, 0.0%Q, true, [])
  else inl InvalidActionError.

(** The number of calls of the running episode that returned
    [done = True], read off the counter. *)
Definition done_calls (self : SimpleMDP) : Z :=
  match steps_beyond_done self with
  | None => 0
  | Some n => n + 1
  end.

(** The log the specification asks of each call of a run: the warning on
    the second call that returns [done = True], nothing on any other; [k]
    counts the earlier calls of the episode that returned [done = True]. *)
Fixpoint second_done_log (k : Z) (outs : list outcome)
  : list (list string) :=
  match outs with
  | [] => []
  | o :: rest =>
    if is_done o then
      (if k =? 1 then [steps_beyond_done_msg] else [])
        :: second_done_log (k + 1) rest
    else [] :: second_done_log k rest
  end.

Definition counter_is (c : option Z) (k : Z) : bool :=
  match c with
  | Some n => n =? k
  | None => false
  end.

(** The 53-bit integer behind a uniform draw: [random] returns it over
    [2^53]. *)
Definition draw53 (x : Z) : Z := Z.shiftr (x mod 2 ^ 64) 11.

(** The least 53-bit draw on which [step] leaves S1 under [action]: the
    ceiling of [transition[0, action, 0] * 2^53]. *)
Definition threshold (action : Z) : Z :=
  Qceiling (stay action * (9007199254740992 # 1)).

(** A call that the action-space assertion rejected. *)
Definition is_rejected (o : outcome) : bool :=
  match snd o with
  | inl (AssertionError None) => true
  | _ => false
  end.

Definition is_render (c : call) : bool :=
  match c with
  | Render _ => true
  | _ => false
  end.

Definition is_reset (c : call) : bool :=
  match c with
  | Reset _ _ => true
  | _ => false
  end.

(** The shape of an episode, call by call: an action outside the action
    space is rejected; any other call returns, with observation 0,
    [done = False] and the reward of S1 for its action while the episode
    runs, and with observation 1, [done = True] and reward 0.0 on the call
    that ends it and on every later one.  [ended] tells whether an earlier
    call has returned [done = True]. *)
Fixpoint well_shaped (ended : bool) (actions : list Z) (outs : list outcome)
  : bool :=
  match actions, outs with
  | [], [] => true
  | action :: actions', o :: outs' =>
    match snd o with
    | inl _ =>
      negb (contains (Discrete 2) action) && well_shaped ended actions' outs'
    | inr (obs, r, done, _) =>
      contains (Discrete 2) action
      && (if done then (obs =? 1) && Qeq_bool r 0
          else negb ended && (obs =? 0) && Qeq_bool r (reward_S1 action))
      && well_shaped (ended || done) actions' outs'
    end
  | _, _ => false
  end.

(** ** The uniform draw and the sampler *)

Lemma random_range (g : BitGenerator) :
  (0 <= fst (random g))%Q /\ (fst (random g) < 1)%Q.
Proof.
  unfold random. destruct (next_uint64 g) as [x g']. cbn [fst].
  assert (Hx : 0 <= x mod 2 ^ 64 < 2 ^ 64) by (apply Z.mod_pos_bound; lia).
  rewrite Z.shiftr_div_pow2 by lia.
  assert (Hq : 0 <= x mod 2 ^ 64 / 2 ^ 11 < 9007199254740992).
  { split.
    - apply Z.div_pos; lia.
    - apply Z.div_lt_upper_bound; lia. }
  unfold Qle, Qlt. cbn [Qnum Qden]. lia.
Qed.

(** On a two-entry cumulative distribution that ends in one, the search
    only looks at the first entry. *)
Lemma searchsorted_two (c0 c1 u : Q) :
  (c1 == 1)%Q -> (u < 1)%Q ->
  searchsorted_right [c0; c1] u = if Qle_bool c0 u then 1 else 0.
Proof.
  intros Hc Hu. cbn [searchsorted_right].
  destruct (Qle_bool c0 u); [|reflexivity].
  destruct (Qle_bool c1 u) eqn:E; [|reflexivity].
  apply Qle_bool_iff in E. rewrite Hc in E.
  exfalso. exact (Qlt_not_le _ _ Hu E).
Qed.

Lemma choice_two (g : BitGenerator) (p0 p1 c0 c1 : Q) :
  check_p 2 [p0; p1] = None ->
  cdf_of [p0; p1] = [c0; c1] -> (c0 == p0)%Q -> (c1 == 1)%Q ->
  choice g 2 [p0; p1] =
  inr (if Qle_bool p0 (fst (random g)) then 1 else 0, snd (random g)).
Proof.
  intros Hchk Hcdf H0 H1. unfold choice. rewrite Hchk, Hcdf.
  destruct (random_range g) as [_ Hu].
  destruct (random g) as [u g']. cbn [fst snd] in *.
  rewrite (searchsorted_two c0 c1 u H1 Hu).
  now rewrite (Qleb_comp c0 p0 H0 u u (Qeq_refl u)).
Qed.

Lemma contains_two (action : Z) :
  contains (Discrete 2) action = true -> action = 0 \/ action = 1.
Proof. unfold contains. lia. Qed.

Lemma choice_S1 (g : BitGenerator) (action : Z) :
  contains (Discrete 2) action = true ->
  exists p,
    getitem3 (transition __init__) 0 action = Some p /\
    choice g 2 p =
    inr (if Qle_bool (stay action) (fst (random g)) then 1 else 0,
         snd (random g)).
Proof.
  intros Ha. destruct (contains_two _ Ha) as [-> | ->].
  - exists [0.66; 0.34]%Q. split; [reflexivity|].
    apply (choice_two g _ _ (0.66 / 1.0000)%Q (1.0000 / 1.0000)%Q);
      reflexivity.
  - exists [0.99; 0.01]%Q. split; [reflexivity|].
    apply (choice_two g _ _ (0.99 / 1.0000)%Q (1.0000 / 1.0000)%Q);
      reflexivity.
Qed.

Lemma choice_S2 (g : BitGenerator) (action : Z) :
  contains (Discrete 2) action = true ->
  exists p,
    getitem3 (transition __init__) 1 action = Some p /\
    choice g 2 p = inr (1, snd (random g)).
Proof.
  intros Ha. destruct (random_range g) as [Hu _].
  assert (Hs : choice g 2 [0.0; 1.0]%Q = inr (1, snd (random g))).
  { rewrite (choice_two g _ _ (0.0 / 1.00)%Q (1.00 / 1.00)%Q);
      try reflexivity.
    replace (Qle_bool 0.0 (fst (random g))) with true; [reflexivity|].
    symmetry. apply Qle_bool_iff.
    assert (E : (0.0 == 0)%Q) by reflexivity. rewrite E. exact Hu. }
  destruct (contains_two _ Ha) as [-> | ->];
    exists [0.0; 1.0]%Q; (split; [reflexivity | exact Hs]).
Qed.

Lemma step_from_S1 (self : SimpleMDP) (entropy : BitGenerator) (action : Z) :
  model_ok self -> state self = Some 0 ->
  contains (Discrete 2) action = true ->
  let g := np_random self entropy in
  step self entropy action =
  if Qle_bool (stay action) (fst (random g)) then
    landed_S2 self (snd (random g))
  else
    (set_state (set_np_random self (Some (snd (random g)))) (Some 0), [],
     inr (0, reward_S1 action, false, [])).
Proof.
  intros Hm Hs Ha g. canonical self Hm. cbn [state] in Hs. subst st.
  unfold step, landed_S2.
  cbn [action_space state transition reward steps_beyond_done set_state
       set_np_random set_steps_beyond_done].
  rewrite Ha. cbn [negb].
  destruct (choice_S1 g action Ha) as (p & Hp & Hc).
  fold g. rewrite Hp, Hc.
  destruct (Qle_bool (stay action) (fst (random g)));
    destruct (contains_two _ Ha) as [-> | ->]; cbn; try reflexivity;
    destruct sbd; reflexivity.
Qed.

Lemma step_from_S2 (self : SimpleMDP) (entropy : BitGenerator) (action : Z) :
  model_ok self -> state self = Some 1 ->
  contains (Discrete 2) action = true ->
  step self entropy action =
  landed_S2 self (snd (random (np_random self entropy))).
Proof.
  intros Hm Hs Ha. canonical self Hm. cbn [state] in Hs. subst st.
  unfold step, landed_S2.
  cbn [action_space state transition reward steps_beyond_done set_state
       set_np_random set_steps_beyond_done].
  rewrite Ha. cbn [negb].
  destruct (choice_S2 (np_random (mkSimpleMDP (Discrete 2) (Discrete 2)
    (Some 1) (transition __init__) (P __init__) (reward __init__) sbd rng)
    entropy) action Ha) as (p & Hp & Hc).
  rewrite Hp, Hc.
  destruct (contains_two _ Ha) as [-> | ->]; cbn; destruct sbd; reflexivity.
Qed.

Lemma step_invalid_action (self : SimpleMDP) (entropy : BitGenerator)
      (action : Z) :
  contains (action_space self) action = false ->
  step self entropy action = (self, [], inl InvalidActionError).
Proof. intros Ha. unfold step. now rewrite Ha. Qed.

Lemma step_unset (self : SimpleMDP) (entropy : BitGenerator) (action : Z) :
  state self = None ->
  contains (action_space self) action = true ->
  step self entropy action = (self, [], inl NotResetError).
Proof. intros Hs Ha. unfold step. now rewrite Ha, Hs. Qed.

(** ** The invariant holds of every reachable engine *)

Lemma model_ok_init : model_ok __init__.
Proof. repeat split. Qed.

Lemma inv_init : inv __init__.
Proof. split; [exact model_ok_init | left; split; reflexivity]. Qed.

Lemma model_ok_landed_S2 (self : SimpleMDP) (g' : BitGenerator) :
  model_ok self -> model_ok (fst (fst (landed_S2 self g'))).
Proof.
  intros Hm. unfold landed_S2.
  destruct (steps_beyond_done self); exact Hm.
Qed.

Lemma episode_ok_landed_S2 (self : SimpleMDP) (g' : BitGenerator) :
  episode_ok self -> state self <> None ->
  episode_ok (fst (fst (landed_S2 self g'))).
Proof.
  intros He Hs. right; right. unfold landed_S2.
  destruct He as [[H _] | [[_ H] | [_ (n & Hn & H)]]].
  - contradiction.
  - rewrite H. cbn. split; [reflexivity|]. exists 0. split; [lia|reflexivity].
  - rewrite H. cbn. split; [reflexivity|]. exists (n + 1).
    split; [lia|reflexivity].
Qed.

Lemma inv_step (self : SimpleMDP) (entropy : BitGenerator) (action : Z) :
  inv self -> inv (fst (fst (step self entropy action))).
Proof.
  intros [Hm He].
  destruct (contains (action_space self) action) eqn:Ha.
  2:{ rewrite step_invalid_action by exact Ha. split; assumption. }
  destruct (state self) as [s|] eqn:Hs.
  2:{ rewrite step_unset by assumption. split; assumption. }
  assert (Ha2 : contains (Discrete 2) action = true).
  { destruct Hm as (E & _). now rewrite <- E. }
  assert (Hne : state self <> None) by (rewrite Hs; discriminate).
  destruct He as [[H _] | [[H Hc] | [H Hc]]]; try congruence.
  - rewrite (step_from_S1 self entropy action Hm H Ha2).
    destruct (Qle_bool _ _).
    + split; [now apply model_ok_landed_S2|].
      apply episode_ok_landed_S2; [|exact Hne].
      right; left. split; assumption.
    + split; [exact Hm|]. right; left. split; [reflexivity | exact Hc].
  - rewrite (step_from_S2 self entropy action Hm H Ha2).
    split; [now apply model_ok_landed_S2|].
    apply episode_ok_landed_S2; [|exact Hne].
    right; right. split; assumption.
Qed.

Lemma model_ok_reset (self : SimpleMDP) (seed : option N) (ri : bool) :
  model_ok self -> model_ok (fst (reset self seed ri)).
Proof.
  intros Hm. unfold reset, Env_reset.
  destruct seed, ri; exact Hm.
Qed.

Lemma inv_reset (self : SimpleMDP) (seed : option N) (ri : bool) :
  inv self -> inv (fst (reset self seed ri)).
Proof.
  intros [Hm _]. split; [now apply model_ok_reset|].
  right; left. unfold reset. destruct ri; split; reflexivity.
Qed.

Lemma inv_after (self : SimpleMDP) (c : call) :
  inv self -> inv (after self c).
Proof.
  intros H. destruct c; cbn [after].
  - now apply inv_step.
  - now apply inv_reset.
  - exact H.
Qed.

Lemma reachable_inv (self : SimpleMDP) : reachable self -> inv self.
Proof.
  induction 1 as [| self c _ IH]; [exact inv_init | now apply inv_after].
Qed.

Lemma reachable_after_all (self : SimpleMDP) (calls : list call) :
  reachable self -> reachable (after_all self calls).
Proof.
  revert self. induction calls as [| c calls IH]; intros self H.
  - exact H.
  - cbn. apply IH. now constructor.
Qed.

Lemma landed_S2_state (self : SimpleMDP) (g' : BitGenerator) :
  state (fst (fst (landed_S2 self g'))) = Some 1 /\
  snd (landed_S2 self g') = inr (1, 0.0%Q, true, []).
Proof. unfold landed_S2. destruct (steps_beyond_done self); now split. Qed.

Lemma model_ok_contains (self : SimpleMDP) (action : Z) :
  model_ok self ->
  contains (action_space self) action = contains (Discrete 2) action.
Proof. intros (E & _). now rewrite E. Qed.

Lemma step_in_S2 (self : SimpleMDP) (entropy : BitGenerator) (action : Z) :
  model_ok self -> state self = Some 1 ->
  state (fst (fst (step self entropy action))) = Some 1 /\
  snd (step self entropy action) = terminal_outcome action.
Proof.
  intros Hm Hs. unfold terminal_outcome.
  destruct (contains (Discrete 2) action) eqn:Ha.
  - rewrite (step_from_S2 self entropy action Hm Hs Ha).
    apply landed_S2_state.
  - rewrite step_invalid_action
      by (now rewrite (model_ok_contains self action Hm)).
    now split.
Qed.

(** X1.  Whenever [step] returns on a reachable engine, the reward it
    returns is the entry of the reward matrix at the state it moved to, not
    at the state it was in. *)
Lemma step_reward_of_new_state
      (self : SimpleMDP) (entropy : BitGenerator) (action : Z)
      (obs : Z) (r : Q) (done : bool) (i : info) :
  reachable self ->
  snd (step self entropy action) = inr (obs, r, done, i) ->
  getitem2 (reward self) obs action = Some r.
Proof.
  intros Hr. destruct (reachable_inv self Hr) as [Hm He].
  destruct (contains (Discrete 2) action) eqn:Ha.
  2:{ rewrite step_invalid_action
        by (now rewrite (model_ok_contains self action Hm)).
      discriminate. }
  assert (Hrw : reward self = reward __init__) by apply Hm.
  rewrite Hrw.
  destruct He as [[H _] | [[H _] | [H _]]].
  - rewrite step_unset
      by (rewrite ?(model_ok_contains self action Hm); assumption).
    discriminate.
  - rewrite (step_from_S1 self entropy action Hm H Ha).
    destruct (Qle_bool _ _).
    + destruct (landed_S2_state self
                  (snd (random (np_random self entropy)))) as [_ E].
      rewrite E. intros [= <- <- _ _].
      destruct (contains_two _ Ha) as [-> | ->]; reflexivity.
    + intros [= <- <- _ _].
      destruct (contains_two _ Ha) as [-> | ->]; reflexivity.
  - rewrite (step_from_S2 self entropy action Hm H Ha).
    destruct (landed_S2_state self
                (snd (random (np_random self entropy)))) as [_ E].
    rewrite E. intros [= <- <- _ _].
    destruct (contains_two _ Ha) as [-> | ->]; reflexivity.
Qed.

(** ** The claims *)

(** C5.  A [step] call on an engine whose state is unset, as it is before
    any [reset], raises and leaves the engine exactly as it was, whatever
    the action; with an action of the action space the exception is the
    assertion that asks for a reset first. *)
Theorem step_before_reset (self : SimpleMDP) (entropy : BitGenerator)
        (action : Z) :
  state self = None ->
  (exists msg,
      step self entropy action = (self, [], inl (AssertionError msg))) /\
  (contains (action_space self) action = true ->
   step self entropy action = (self, [], inl NotResetError)).
Proof.
  intros Hs. split.
  - destruct (contains (action_space self) action) eqn:Ha.
    + exists (Some not_reset_msg). now apply step_unset.
    + exists None. now apply step_invalid_action.
  - intros Ha. now apply step_unset.
Qed.

(** C6.  On every reachable engine a [step] call with an action outside
    [{0, 1}] raises the action-space assertion, logs nothing, and returns
    the engine unchanged: neither [state] nor [steps_beyond_done] nor any
    other field is touched. *)
Theorem step_rejects_action_outside_space
        (self : SimpleMDP) (entropy : BitGenerator) (action : Z) :
  reachable self -> action < 0 \/ 2 <= action ->
  step self entropy action = (self, [], inl InvalidActionError).
Proof.
  intros Hr Ha. apply step_invalid_action.
  destruct (reachable_inv self Hr) as [Hm _].
  rewrite (model_ok_contains self action Hm). unfold contains. lia.
Qed.

(** C8.  From any engine whatsoever, [reset] leaves [state] at the start
    state 0 and [steps_beyond_done] unset and returns the observation 0,
    for every seed and either value of [return_info]; hence any number of
    consecutive [reset] calls, with any seeds, all return 0. *)
Theorem reset_restarts_episode (self : SimpleMDP) (seed : option N)
        (return_info : bool) :
  state (fst (reset self seed return_info)) = Some 0 /\
  steps_beyond_done (fst (reset self seed return_info)) = None /\
  observation (snd (reset self seed return_info)) = 0 /\
  (forall args : list (option N * bool),
      snd (reset_all self args) = repeat 0 (List.length args)).
Proof.
  repeat split.
  - unfold reset. now destruct return_info.
  - unfold reset. now destruct return_info.
  - unfold reset. now destruct return_info.
  - intros args. revert self.
    induction args as [| [sd ri] args IH]; intros self; [reflexivity|].
    cbn [reset_all]. destruct (reset self sd ri) as [self1 r] eqn:E.
    specialize (IH self1). destruct (reset_all self1 args) as [self2 obs].
    cbn [snd] in *. rewrite IH. cbn [List.length repeat]. f_equal.
    unfold reset in E. destruct ri; inversion E; reflexivity.
Qed.

Lemma step_frame (self : SimpleMDP) (entropy : BitGenerator) (action : Z) :
  let self' := fst (fst (step self entropy action)) in
  transition self' = transition self /\ reward self' = reward self /\
  P self' = P self.
Proof.
  unfold step.
  repeat match goal with
         | |- context [match ?x with _ => _ end] => destruct x
         end; cbn; auto.
Qed.

Lemma reset_frame (self : SimpleMDP) (seed : option N) (ri : bool) :
  let self' := fst (reset self seed ri) in
  transition self' = transition self /\ reward self' = reward self /\
  P self' = P self.
Proof. unfold reset, Env_reset. destruct seed, ri; cbn; auto. Qed.

(** C9.  Whatever sequence of [step], [reset] and [render] calls is made
    on an engine, returning or raising, its [transition] tensor, its
    [reward] matrix and its table [P] are afterwards what they were. *)
Theorem model_never_mutated (self : SimpleMDP) (calls : list call) :
  transition (after_all self calls) = transition self /\
  reward (after_all self calls) = reward self /\
  P (after_all self calls) = P self.
Proof.
  revert self. induction calls as [| c calls IH]; intros self.
  - now repeat split.
  - cbn [after_all fold_left]. fold (after_all (after self c) calls).
    destruct (IH (after self c)) as (H1 & H2 & H3).
    rewrite H1, H2, H3. destruct c; cbn [after].
    + apply step_frame.
    + apply reset_frame.
    + now repeat split.
Qed.

(** C10.  In the canonical tensor both rows of S2 put probability one on
    S2, and on a reachable engine whose state is S2 any run of [step]
    calls leaves the state at S2: each call with an action of the action
    space returns observation 1 and [done = True] (with reward 0.0), and
    each call with another action is rejected. *)
Theorem terminal_state_absorbing
        (self : SimpleMDP) (entropy : BitGenerator) (actions : list Z) :
  reachable self -> state self = Some 1 ->
  getitem (transition self) 1 = Some [[0.0; 1.0]; [0.0; 1.0]]%Q /\
  state (fst (run self entropy actions)) = Some 1 /\
  map snd (snd (run self entropy actions)) = map terminal_outcome actions.
Proof.
  intros Hr Hs. pose proof (reachable_inv self Hr) as Hi. split.
  - destruct Hi as [(_ & _ & E & _) _]. now rewrite E.
  - clear Hr. revert self Hs Hi.
    induction actions as [| a actions IH]; intros self Hs Hi.
    + now split.
    + cbn [run].
      pose proof (inv_step self entropy a Hi) as Hi1.
      destruct Hi as [Hm _].
      destruct (step_in_S2 self entropy a Hm Hs) as [Hs1 Ho].
      destruct (step self entropy a) as [[self1 lg] res].
      cbn [fst snd] in *.
      destruct (IH self1 Hs1 Hi1) as [IH1 IH2].
      destruct (run self1 entropy actions) as [self2 outs].
      cbn [fst snd map] in *. split; [exact IH1|].
      now rewrite Ho, IH2.
Qed.

Lemma count_done_cons (o : outcome) (outs : list outcome) :
  count_done (o :: outs) = (if is_done o then 1 else 0) + count_done outs.
Proof.
  unfold count_done. cbn [filter]. destruct (is_done o); cbn [List.length]; lia.
Qed.

Lemma count_done_nonneg (outs : list outcome) : 0 <= count_done outs.
Proof. unfold count_done. lia. Qed.

(** One call of a started episode: the counter follows the calls that
    returned [done = True], and the warning is logged by the second one. *)
Lemma step_episode (self : SimpleMDP) (entropy : BitGenerator) (action : Z) :
  inv self -> state self <> None ->
  let r := step self entropy action in
  let o := (snd (fst r), snd r) in
  state (fst (fst r)) <> None /\
  done_calls (fst (fst r)) = done_calls self + (if is_done o then 1 else 0) /\
  fst o = if is_done o && (done_calls self =? 1)
          then [steps_beyond_done_msg] else [].
Proof.
  intros [Hm He] Hs.
  destruct (contains (Discrete 2) action) eqn:Ha.
  2:{ rewrite step_invalid_action
        by (now rewrite (model_ok_contains self action Hm)).
      cbn. repeat split; [exact Hs | lia]. }
  destruct He as [[H _] | [[H Hc] | [H (n & Hn & Hc)]]]; [congruence | |].
  - cbv zeta. rewrite (step_from_S1 self entropy action Hm H Ha).
    unfold done_calls, landed_S2. rewrite Hc.
    destruct (Qle_bool _ _); cbn; rewrite ?Hc; repeat split;
      intros E; discriminate E.
  - cbv zeta. rewrite (step_from_S2 self entropy action Hm H Ha).
    unfold done_calls, landed_S2. rewrite Hc. cbn.
    split; [intros E; discriminate E | split; [lia|]].
    destruct (Z.eqb_spec n 0), (Z.eqb_spec (n + 1) 1); try lia; reflexivity.
Qed.

Lemma run_episode (self : SimpleMDP) (entropy : BitGenerator)
      (actions : list Z) :
  inv self -> state self <> None ->
  let r := run self entropy actions in
  done_calls (fst r) = done_calls self + count_done (snd r) /\
  map fst (snd r) = second_done_log (done_calls self) (snd r) /\
  logged (snd r) =
  if (done_calls self <? 2) && (2 <=? done_calls self + count_done (snd r))
  then [steps_beyond_done_msg] else [].
Proof.
  revert self. induction actions as [| a actions IH]; intros self Hi Hs.
  - cbn. repeat split; [unfold count_done; cbn; lia|].
    unfold count_done. cbn.
    destruct (Z.ltb_spec (done_calls self) 2),
             (Z.leb_spec 2 (done_calls self + 0)); try reflexivity; lia.
  - cbn [run].
    pose proof (inv_step self entropy a Hi) as Hi1.
    destruct (step_episode self entropy a Hi Hs) as (Hs1 & Hd & Hl).
    destruct (step self entropy a) as [[self1 lg] res].
    cbn [fst snd] in *.
    destruct (IH self1 Hi1 Hs1) as (IHd & IHm & IHl).
    destruct (run self1 entropy actions) as [self2 outs].
    cbn [fst snd] in *.
    pose proof (count_done_nonneg outs) as Hnn.
    rewrite count_done_cons. unfold logged in *.
    cbn [map List.concat second_done_log fst].
    remember (is_done (lg, res)) as d eqn:Ed. clear Ed.
    rewrite IHl, IHm, Hd. subst lg.
    destruct d; cbn [andb].
    + split; [lia|]. split; [reflexivity|].
      destruct (Z.eqb_spec (done_calls self) 1),
               (Z.ltb_spec (done_calls self) 2),
               (Z.ltb_spec (done_calls self + 1) 2),
               (Z.leb_spec 2 (done_calls self + 1 + count_done outs)),
               (Z.leb_spec 2 (done_calls self + (1 + count_done outs)));
        cbn; try reflexivity; lia.
    + rewrite !Z.add_0_r. split; [lia|]. split; [reflexivity|].
      replace (done_calls self + (0 + count_done outs))
        with (done_calls self + count_done outs) by lia.
      reflexivity.
Qed.

Lemma inv_run (self : SimpleMDP) (entropy : BitGenerator)
      (actions : list Z) :
  inv self -> inv (fst (run self entropy actions)).
Proof.
  revert self. induction actions as [| a actions IH]; intros self Hi.
  - exact Hi.
  - cbn [run]. pose proof (inv_step self entropy a Hi) as Hi1.
    destruct (step self entropy a) as [[self1 lg] res]. cbn [fst] in Hi1.
    specialize (IH self1 Hi1).
    now destruct (run self1 entropy actions) as [self2 outs].
Qed.

Lemma reset_started (self : SimpleMDP) (seed : option N) (ri : bool) :
  state (fst (reset self seed ri)) <> None /\
  done_calls (fst (reset self seed ri)) = 0.
Proof. unfold reset. destruct ri; split; cbn; congruence. Qed.

(** What one call logs, and where it leaves the counter, on an engine
    that satisfies the invariant. *)
Lemma step_log (self : SimpleMDP) (entropy : BitGenerator) (action : Z) :
  inv self ->
  let fires :=
    contains (Discrete 2) action && counter_is (steps_beyond_done self) 0 in
  snd (fst (step self entropy action)) =
  (if fires then [steps_beyond_done_msg] else []) /\
  implb fires
    (counter_is (steps_beyond_done (fst (fst (step self entropy action)))) 1)
  = true.
Proof.
  intros [Hm He]. cbv zeta.
  destruct (contains (Discrete 2) action) eqn:Ha.
  2:{ rewrite step_invalid_action
        by (now rewrite (model_ok_contains self action Hm)).
      now split. }
  cbn [andb].
  destruct He as [[H Hc] | [[H Hc] | [H (n & Hn & Hc)]]].
  - rewrite step_unset
      by (rewrite ?(model_ok_contains self action Hm); assumption).
    rewrite Hc. now split.
  - rewrite (step_from_S1 self entropy action Hm H Ha).
    unfold landed_S2. rewrite Hc.
    destruct (Qle_bool _ _); now split.
  - rewrite (step_from_S2 self entropy action Hm H Ha).
    unfold landed_S2. rewrite Hc. cbn.
    destruct (Z.eqb_spec n 0) as [-> |]; now split.
Qed.

(** C3.  On a reachable engine whose state is S2 the counter is set, and
    a [step] call with any action of the action space returns observation
    1, reward 0.0 and [done = True] and adds one to the counter.  Over an
    episode, the counter is unset as long as no call has returned
    [done = True], is 0 after the first such call, and has grown by one
    with each later one. *)
Theorem post_terminal_steps
        (self : SimpleMDP) (seed : option N) (return_info : bool)
        (entropy : BitGenerator) (actions : list Z) (action : Z) :
  reachable self ->
  (state self = Some 1 -> contains (Discrete 2) action = true ->
   exists n,
     0 <= n /\ steps_beyond_done self = Some n /\
     snd (step self entropy action) = inr (1, 0.0%Q, true, []) /\
     state (fst (fst (step self entropy action))) = Some 1 /\
     steps_beyond_done (fst (fst (step self entropy action)))
     = Some (n + 1)) /\
  let r := run (fst (reset self seed return_info)) entropy actions in
  steps_beyond_done (fst r) =
  if count_done (snd r) =? 0 then None
  else Some (count_done (snd r) - 1).
Proof.
  intros Hr. pose proof (reachable_inv self Hr) as Hi. split.
  - intros Hs Ha. destruct Hi as [Hm He].
    destruct He as [[H _] | [[H _] | [_ (n & Hn & Hc)]]]; try congruence.
    exists n. rewrite (step_from_S2 self entropy action Hm Hs Ha).
    unfold landed_S2. rewrite Hc. now repeat split.
  - cbv zeta.
    pose proof (inv_reset self seed return_info Hi) as Hi0.
    destruct (reset_started self seed return_info) as [Hs0 Hd0].
    destruct (run_episode _ entropy actions Hi0 Hs0) as (Hd & _ & _).
    pose proof (inv_run _ entropy actions Hi0) as [_ He].
    rewrite Hd0 in Hd. unfold done_calls in Hd.
    pose proof (count_done_nonneg
                  (snd (run (fst (reset self seed return_info))
                            entropy actions))) as Hnn.
    destruct He as [[_ Hc] | [[_ Hc] | [_ (n & Hn & Hc)]]];
      rewrite Hc in *.
    + destruct (Z.eqb_spec (count_done (snd (run (fst (reset self seed
        return_info)) entropy actions))) 0); [reflexivity | lia].
    + destruct (Z.eqb_spec (count_done (snd (run (fst (reset self seed
        return_info)) entropy actions))) 0); [reflexivity | lia].
    + destruct (Z.eqb_spec (count_done (snd (run (fst (reset self seed
        return_info)) entropy actions))) 0); [lia|].
      f_equal. lia.
Qed.

(** C4.  In the episode that a [reset] of a reachable engine starts, a
    call logs the warning exactly when it is the second call of the
    episode to return [done = True], and logs nothing otherwise; so the
    whole episode logs the warning once if two calls returned
    [done = True] and never if fewer did.  On any reachable engine the
    call that logs it is the one made with an action of the action space
    while the counter is 0, and it leaves the counter at 1. *)
Theorem warning_once_per_episode
        (self : SimpleMDP) (seed : option N) (return_info : bool)
        (entropy : BitGenerator) (actions : list Z) (action : Z) :
  reachable self ->
  let outs :=
    snd (run (fst (reset self seed return_info)) entropy actions) in
  let fires :=
    contains (Discrete 2) action && counter_is (steps_beyond_done self) 0 in
  map fst outs = second_done_log 0 outs /\
  logged outs =
  (if 2 <=? count_done outs then [steps_beyond_done_msg] else []) /\
  snd (fst (step self entropy action)) =
  (if fires then [steps_beyond_done_msg] else []) /\
  implb fires
    (counter_is (steps_beyond_done (fst (fst (step self entropy action)))) 1)
  = true.
Proof.
  intros Hr. pose proof (reachable_inv self Hr) as Hi. cbv zeta.
  pose proof (inv_reset self seed return_info Hi) as Hi0.
  destruct (reset_started self seed return_info) as [Hs0 Hd0].
  destruct (run_episode _ entropy actions Hi0 Hs0) as (_ & Hm & Hl).
  rewrite Hd0 in Hm, Hl. cbn in Hl.
  destruct (step_log self entropy action Hi) as [H1 H2].
  repeat split; assumption.
Qed.

(** ** Seeding *)

Lemma step_seeded (self : SimpleMDP) (g e1 e2 : BitGenerator) (action : Z) :
  _np_random self = Some g ->
  step self e1 action = step self e2 action.
Proof. intros H. unfold step, np_random. now rewrite H. Qed.

Lemma step_keeps_generator (self : SimpleMDP) (entropy : BitGenerator)
      (action : Z) :
  _np_random self <> None ->
  _np_random (fst (fst (step self entropy action))) <> None.
Proof.
  intros H. unfold step.
  repeat match goal with
         | |- context [match ?x with _ => _ end] => destruct x
         end; cbn; solve [exact H | discriminate].
Qed.

Lemma run_seeded (self : SimpleMDP) (e1 e2 : BitGenerator)
      (actions : list Z) :
  _np_random self <> None ->
  run self e1 actions = run self e2 actions.
Proof.
  revert self. induction actions as [| a actions IH]; intros self H.
  - reflexivity.
  - cbn [run]. destruct (_np_random self) as [g|] eqn:Eg; [|congruence].
    rewrite (step_seeded self g e1 e2 a Eg).
    pose proof (step_keeps_generator self e2 a) as Hk.
    rewrite Eg in Hk. specialize (Hk H).
    destruct (step self e2 a) as [[self1 lg] res]. cbn [fst] in Hk.
    now rewrite (IH self1 Hk).
Qed.

Lemma reset_seeded_eq (self1 self2 : SimpleMDP) (K : N) (ri : bool) :
  model_ok self1 -> model_ok self2 ->
  reset self1 (Some K) ri = reset self2 (Some K) ri.
Proof.
  intros H1 H2. canonical self1 H1.
  destruct self2 as [asp osp st2 tr Pt rw sbd2 rng2].
  destruct H2 as (Hasp & Hosp & Htr & HPt & Hrw).
  cbn [action_space observation_space transition P reward] in Hasp, Hosp,
    Htr, HPt, Hrw.
  subst asp osp tr Pt rw. unfold reset. now destruct ri.
Qed.

(** C7.  Take any two reachable engines, the same one at two moments or
    two different ones, call [reset] with the same seed on each and then
    [step] with the same actions: the two resets return the same
    observation, and the two runs return, call by call, the same
    observations, rewards and [done] flags (and log the same warnings and
    raise the same exceptions), whatever generator either engine held
    before and whatever the operating system's entropy is. *)
Theorem same_seed_same_episode
        (self1 self2 : SimpleMDP) (K : N) (return_info : bool)
        (e1 e2 : BitGenerator) (actions : list Z) :
  reachable self1 -> reachable self2 ->
  snd (reset self1 (Some K) return_info)
  = snd (reset self2 (Some K) return_info) /\
  snd (run (fst (reset self1 (Some K) return_info)) e1 actions)
  = snd (run (fst (reset self2 (Some K) return_info)) e2 actions).
Proof.
  intros H1 H2.
  destruct (reachable_inv self1 H1) as [Hm1 _].
  destruct (reachable_inv self2 H2) as [Hm2 _].
  rewrite (reset_seeded_eq self1 self2 K return_info Hm1 Hm2).
  split; [reflexivity|].
  rewrite (run_seeded _ e1 e2 actions); [reflexivity|].
  unfold reset. destruct return_info; discriminate.
Qed.

(** ** Construction *)

(** C2, as the code has it.  The constructor takes no model: called
    without arguments it never raises and returns the engine that holds
    the canonical tensor, every row of which has non-negative entries
    that sum to one, with [state] and [steps_beyond_done] unset; called
    with an argument it raises [TypeError] without looking at it. *)
Theorem construction_installs_canonical_model :
  SimpleMDP_new [] = inr __init__ /\
  rows_are_distributions (transition __init__) = true /\
  state __init__ = None /\
  steps_beyond_done __init__ = None /\
  (forall name tensor rest,
      SimpleMDP_new ((name, tensor) :: rest) = inl (TypeError name)).
Proof. repeat split. Qed.

(** ** Further properties of [step], [reset] and [render] *)

Lemma random_draw (g : BitGenerator) :
  random g
  = (draw53 (fst (next_uint64 g)) # 9007199254740992, snd (next_uint64 g)).
Proof. unfold random, draw53. now destruct (next_uint64 g). Qed.

Lemma landed_S2_generator (self : SimpleMDP) (g' : BitGenerator) :
  _np_random (fst (fst (landed_S2 self g'))) = Some g'.
Proof. unfold landed_S2. now destruct (steps_beyond_done self). Qed.


(** X3.  Whenever [step] returns on a reachable engine, the observation
    is the state the engine is left in, it belongs to the observation
    space, [done] is true exactly when it is 1, and [info] is empty. *)
Theorem step_result_consistent
        (self : SimpleMDP) (entropy : BitGenerator) (action : Z)
        (obs : Z) (r : Q) (done : bool) (i : info) :
  reachable self ->
  snd (step self entropy action) = inr (obs, r, done, i) ->
  state (fst (fst (step self entropy action))) = Some obs /\
  contains (observation_space self) obs = true /\
  done = (obs =? 1) /\
  i = [].
Proof.
  intros Hr. destruct (reachable_inv self Hr) as [Hm He].
  assert (Hos : observation_space self = Discrete 2) by apply Hm.
  rewrite Hos.
  destruct (contains (Discrete 2) action) eqn:Ha.
  2:{ rewrite step_invalid_action
        by (now rewrite (model_ok_contains self action Hm)).
      discriminate. }
  destruct He as [[H _] | [[H _] | [H _]]].
  - rewrite step_unset
      by (rewrite ?(model_ok_contains self action Hm); assumption).
    discriminate.
  - rewrite (step_from_S1 self entropy action Hm H Ha).
    destruct (Qle_bool _ _).
    + destruct (landed_S2_state self
                  (snd (random (np_random self entropy)))) as [Es E].
      rewrite E, Es. intros [= <- _ <- <-]. now repeat split.
    + cbn. intros [= <- _ <- <-]. now repeat split.
  - rewrite (step_from_S2 self entropy action Hm H Ha).
    destruct (landed_S2_state self
                (snd (random (np_random self entropy)))) as [Es E].
    rewrite E, Es. intros [= <- _ <- <-]. now repeat split.
Qed.

(** X5.  On a reachable engine a [step] call that returns takes exactly
    one 64-bit output from the generator, the engine's own or, when it has
    none yet, the entropy-made one, and keeps the advanced generator; a
    call that raises leaves the generator field as it was. *)
Theorem step_draws_once
        (self : SimpleMDP) (entropy : BitGenerator) (action : Z) :
  reachable self ->
  _np_random (fst (fst (step self entropy action)))
  = match snd (step self entropy action) with
    | inr _ => Some (snd (next_uint64 (np_random self entropy)))
    | inl _ => _np_random self
    end.
Proof.
  intros Hr. destruct (reachable_inv self Hr) as [Hm He].
  destruct (contains (Discrete 2) action) eqn:Ha.
  2:{ rewrite step_invalid_action
        by (now rewrite (model_ok_contains self action Hm)).
      reflexivity. }
  destruct He as [[H _] | [[H _] | [H _]]].
  - rewrite step_unset
      by (rewrite ?(model_ok_contains self action Hm); assumption).
    reflexivity.
  - rewrite (step_from_S1 self entropy action Hm H Ha).
    rewrite random_draw. cbn [fst snd].
    destruct (Qle_bool _ _).
    + destruct (landed_S2_state self
                  (snd (next_uint64 (np_random self entropy)))) as [_ E].
      rewrite E. apply landed_S2_generator.
    + reflexivity.
  - rewrite (step_from_S2 self entropy action Hm H Ha).
    rewrite random_draw. cbn [snd].
    destruct (landed_S2_state self
                (snd (next_uint64 (np_random self entropy)))) as [_ E].
    rewrite E. apply landed_S2_generator.
Qed.

(** X10.  On every reachable engine the state is unset, 0 or 1, the
    counter [steps_beyond_done] is set exactly when the state is 1, and it
    is never negative. *)
Theorem counter_set_iff_terminal (self : SimpleMDP) :
  reachable self ->
  (state self = None \/ state self = Some 0 \/ state self = Some 1) /\
  (steps_beyond_done self <> None <-> state self = Some 1) /\
  (forall n, steps_beyond_done self = Some n -> 0 <= n).
Proof.
  intros Hr. destruct (reachable_inv self Hr) as [_ He].
  destruct He as [[H Hc] | [[H Hc] | [H (n & Hn & Hc)]]];
    rewrite H, Hc.
  - split; [now left|]. split; [split; congruence | discriminate].
  - split; [now right; left|]. split; [split; congruence | discriminate].
  - split; [now right; right|]. split; [split; congruence|].
    intros m [= <-]. exact Hn.
Qed.

(** X9.  Only [reset] starts an episode: a sequence of [step] and [render]
    calls without a [reset], made on an engine whose state is unset, leaves
    the engine exactly as it was. *)
Theorem unstarted_until_reset (self : SimpleMDP) (calls : list call) :
  state self = None ->
  existsb is_reset calls = false ->
  after_all self calls = self.
Proof.
  intros Hs. induction calls as [| c calls IH]; intros Hc; [reflexivity|].
  cbn [existsb] in Hc. apply orb_false_iff in Hc. destruct Hc as [Hc1 Hc2].
  cbn [after_all fold_left]. fold (after_all (after self c) calls).
  assert (E : after self c = self).
  { destruct c as [e a | sd ri | m]; cbn [after]; [|discriminate|reflexivity].
    destruct (contains (action_space self) a) eqn:Ha.
    - now rewrite step_unset.
    - now rewrite step_invalid_action. }
  rewrite E. exact (IH Hc2).
Qed.

Lemma run_shape (self : SimpleMDP) (entropy : BitGenerator)
      (actions : list Z) (st : Z) :
  inv self -> state self = Some st ->
  well_shaped (st =? 1) actions (snd (run self entropy actions)) = true.
Proof.
  revert self st. induction actions as [| a actions IH]; intros self st Hi Hs.
  - reflexivity.
  - cbn [run].
    pose proof (inv_step self entropy a Hi) as Hi1.
    destruct Hi as [Hm He].
    destruct (contains (Discrete 2) a) eqn:Ha.
    2:{ rewrite step_invalid_action in *
          by (now rewrite (model_ok_contains self a Hm)).
        cbn [fst] in Hi1. specialize (IH self st Hi1 Hs).
        destruct (run self entropy actions) as [self2 outs].
        cbn [snd well_shaped] in *. now rewrite Ha, IH. }
    destruct He as [[H _] | [[H _] | [H _]]]; [congruence | |].
    + assert (st = 0) by congruence. subst st.
      rewrite (step_from_S1 self entropy a Hm H Ha) in *.
      destruct (Qle_bool _ _).
      * destruct (landed_S2_state self
                    (snd (random (np_random self entropy)))) as [Es E].
        destruct (landed_S2 self (snd (random (np_random self entropy))))
          as [[self1 lg] res].
        cbn [fst snd] in *. subst res.
        specialize (IH self1 1 Hi1 Es).
        destruct (run self1 entropy actions) as [self2 outs].
        cbn [snd well_shaped] in *. rewrite Ha. exact IH.
      * cbn [fst] in Hi1.
        specialize (IH _ 0 Hi1 eq_refl).
        destruct (run _ entropy actions) as [self2 outs].
        cbn [snd well_shaped] in *. rewrite Ha.
        destruct (contains_two _ Ha) as [-> | ->]; exact IH.
    + assert (st = 1) by congruence. subst st.
      rewrite (step_from_S2 self entropy a Hm H Ha) in *.
      destruct (landed_S2_state self
                  (snd (random (np_random self entropy)))) as [Es E].
      destruct (landed_S2 self (snd (random (np_random self entropy))))
        as [[self1 lg] res].
      cbn [fst snd] in *. subst res.
      specialize (IH self1 1 Hi1 Es).
      destruct (run self1 entropy actions) as [self2 outs].
      cbn [snd well_shaped] in *. rewrite Ha. exact IH.
Qed.

(** X4.  The episode that a [reset] of a reachable engine starts has this
    shape, whatever the actions and the draws: a call with an action
    outside the action space is rejected; every other call returns, with
    observation 0, [done = False] and reward [reward[0][action]] as long as
    the episode runs, and with observation 1, [done = True] and reward 0.0
    on the call that ends it and on every call after that one. *)
Theorem episode_shape
        (self : SimpleMDP) (seed : option N) (return_info : bool)
        (entropy : BitGenerator) (actions : list Z) :
  reachable self ->
  well_shaped false actions
    (snd (run (fst (reset self seed return_info)) entropy actions)) = true.
Proof.
  intros Hr.
  pose proof (inv_reset self seed return_info (reachable_inv self Hr)) as Hi.
  apply (run_shape _ entropy actions 0 Hi).
  unfold reset. now destruct return_info.
Qed.

Lemma stay_threshold (action k : Z) :
  contains (Discrete 2) action = true ->
  Qle_bool (stay action) (k # 9007199254740992) = (threshold action <=? k).
Proof.
  intros Ha. destruct (contains_two _ Ha) as [-> | ->].
  - change (threshold 0) with 5944751508129055.
    unfold Qle_bool. cbn [stay Z.eqb Qnum Qden].
    destruct (Z.leb_spec 5944751508129055 k);
      [apply Z.leb_le | apply Z.leb_gt]; lia.
  - change (threshold 1) with 8917127262193583.
    unfold Qle_bool. cbn [stay Z.eqb Qnum Qden].
    destruct (Z.leb_spec 8917127262193583 k);
      [apply Z.leb_le | apply Z.leb_gt]; lia.
Qed.


Lemma valid_not_rejected (self : SimpleMDP) (entropy : BitGenerator)
      (action : Z) :
  inv self -> contains (Discrete 2) action = true ->
  is_rejected (snd (fst (step self entropy action)),
               snd (step self entropy action)) = false.
Proof.
  intros [Hm He] Ha. unfold is_rejected. cbn [snd].
  destruct He as [[H _] | [[H _] | [H _]]].
  - rewrite step_unset
      by (rewrite ?(model_ok_contains self action Hm); assumption).
    reflexivity.
  - rewrite (step_from_S1 self entropy action Hm H Ha).
    destruct (Qle_bool _ _); [|reflexivity].
    destruct (landed_S2_state self
                (snd (random (np_random self entropy)))) as [_ E].
    now rewrite E.
  - rewrite (step_from_S2 self entropy action Hm H Ha).
    destruct (landed_S2_state self
                (snd (random (np_random self entropy)))) as [_ E].
    now rewrite E.
Qed.

Lemma run_without_rejected (self : SimpleMDP) (entropy : BitGenerator)
      (actions : list Z) :
  inv self ->
  run self entropy (filter (contains (Discrete 2)) actions)
  = (fst (run self entropy actions),
     filter (fun o => negb (is_rejected o)) (snd (run self entropy actions))).
Proof.
  revert self. induction actions as [| a actions IH]; intros self Hi.
  - reflexivity.
  - cbn [filter]. destruct (contains (Discrete 2) a) eqn:Ha.
    + cbn [run].
      pose proof (inv_step self entropy a Hi) as Hi1.
      pose proof (valid_not_rejected self entropy a Hi Ha) as Hv.
      destruct (step self entropy a) as [[self1 lg] res].
      cbn [fst snd] in *. rewrite (IH self1 Hi1).
      destruct (run self1 entropy actions) as [self2 outs].
      cbn [fst snd filter]. now rewrite Hv.
    + rewrite (IH self Hi). cbn [run].
      destruct Hi as [Hm _].
      rewrite step_invalid_action
        by (now rewrite (model_ok_contains self a Hm)).
      destruct (run self entropy actions) as [self2 outs].
      reflexivity.
Qed.

(** X7.  Rejected calls are transparent: on a reachable engine, a run of
    [step] calls and the run of the same calls without those whose action
    is outside the action space leave the same engine and return the same
    results, call by call, for the calls they share. *)
Theorem rejected_calls_are_transparent
        (self : SimpleMDP) (entropy : BitGenerator) (actions : list Z) :
  reachable self ->
  fst (run self entropy (filter (contains (Discrete 2)) actions))
  = fst (run self entropy actions) /\
  snd (run self entropy (filter (contains (Discrete 2)) actions))
  = filter (fun o => negb (is_rejected o)) (snd (run self entropy actions)).
Proof.
  intros Hr.
  rewrite (run_without_rejected self entropy actions (reachable_inv self Hr)).
  now split.
Qed.


(** X11.  [step] stays within the support of the table [P]: whenever it
    returns on a reachable engine in state [s], the entry of [P[s][action]]
    whose next state is the returned observation carries a positive
    probability and the returned [done] flag.  (The reward of that entry is
    not looked at: it is the reward of [s], which [step] does not pay when
    it leaves S1.) *)
Theorem step_within_support_of_P
        (self : SimpleMDP) (entropy : BitGenerator) (s action : Z)
        (obs : Z) (r : Q) (done : bool) (i : info) :
  reachable self -> state self = Some s ->
  snd (step self entropy action) = inr (obs, r, done, i) ->
  exists entries prob rw,
    P_lookup (P self) s action = Some entries /\
    In (prob, obs, rw, done) entries /\
    (0 < prob)%Q.
Proof.
  intros Hr Hs. destruct (reachable_inv self Hr) as [Hm He].
  assert (HP : P self = P __init__) by apply Hm. rewrite HP.
  destruct (contains (Discrete 2) action) eqn:Ha.
  2:{ rewrite step_invalid_action
        by (now rewrite (model_ok_contains self action Hm)).
      discriminate. }
  destruct He as [[H _] | [[H _] | [H _]]]; [congruence | |].
  - assert (s = 0) by congruence. subst s.
    rewrite (step_from_S1 self entropy action Hm H Ha).
    destruct (Qle_bool _ _).
    + destruct (landed_S2_state self
                  (snd (random (np_random self entropy)))) as [_ E].
      rewrite E. intros [= <- _ <- _].
      destruct (contains_two _ Ha) as [-> | ->].
      * exists [(0.66%Q, 0, 0.122%Q, false); (0.34%Q, 1, 0.122%Q, true)],
          0.34%Q, 0.122%Q.
        split; [reflexivity|]. split; [right; left; reflexivity|reflexivity].
      * exists [(0.99%Q, 0, 0.033%Q, false); (0.01%Q, 1, 0.033%Q, true)],
          0.01%Q, 0.033%Q.
        split; [reflexivity|]. split; [right; left; reflexivity|reflexivity].
    + cbn [snd]. intros [= <- _ <- _].
      destruct (contains_two _ Ha) as [-> | ->].
      * exists [(0.66%Q, 0, 0.122%Q, false); (0.34%Q, 1, 0.122%Q, true)],
          0.66%Q, 0.122%Q.
        split; [reflexivity|]. split; [left; reflexivity|reflexivity].
      * exists [(0.99%Q, 0, 0.033%Q, false); (0.01%Q, 1, 0.033%Q, true)],
          0.99%Q, 0.033%Q.
        split; [reflexivity|]. split; [left; reflexivity|reflexivity].
  - assert (s = 1) by congruence. subst s.
    rewrite (step_from_S2 self entropy action Hm H Ha).
    destruct (landed_S2_state self
                (snd (random (np_random self entropy)))) as [_ E].
    rewrite E. intros [= <- _ <- _].
    exists [(0%Q, 0, 0%Q, false); (1%Q, 1, 0%Q, true)], 1%Q, 0%Q.
    split; [|split; [right; left; reflexivity|reflexivity]].
    destruct (contains_two _ Ha) as [-> | ->]; reflexivity.
Qed.

End Engine.

Arguments __init__ {BitGenerator}.
Arguments SimpleMDP_new {BitGenerator} kwargs.
Arguments state {BitGenerator} s.
Arguments steps_beyond_done {BitGenerator} s.
Arguments transition {BitGenerator} s.
Arguments reward {BitGenerator} s.
Arguments P {BitGenerator} s.
Arguments step {BitGenerator} next_uint64 self entropy action.
Arguments reset {BitGenerator} seeded self seed return_info.
Arguments run {BitGenerator} next_uint64 self entropy actions.
Arguments Step {BitGenerator} entropy action.
Arguments Reset {BitGenerator} seed return_info.
Arguments after {BitGenerator} next_uint64 seeded self c.
Arguments reachable {BitGenerator} next_uint64 seeded self.
Arguments Render {BitGenerator} mode.
Arguments after_all {BitGenerator} next_uint64 seeded self calls.
Arguments is_reset {BitGenerator} c.
Arguments is_render {BitGenerator} c.
Arguments _np_random {BitGenerator} s.
Arguments np_random {BitGenerator} self entropy.

(** ** Concrete runs, on the sample generator *)

(** C1.  The code at the failing input: after [reset()] the engine is in
    S1, where [reward[0][0]] is 0.122 and the table [P] promises 0.122 on
    either destination of action 0; yet the [step(0)] call whose draw lands in
    S2 returns reward 0.0, the entry [reward[1][0]] of the state it has just
    moved to. *)
Theorem step_reward_read_after_transition :
  let started := fst (reset Lcg.seeded __init__ None false) in
  state started = Some 0 /\
  getitem2 (reward started) 0 0 = Some 0.122%Q /\
  P_lookup (P started) 0 0
  = Some [(0.66%Q, 0, 0.122%Q, false); (0.34%Q, 1, 0.122%Q, true)] /\
  snd (step Lcg.next_uint64 started Lcg.high 0) = inr (1, 0.0%Q, true, []) /\
  getitem2 (reward started) 1 0 = Some 0.0%Q.
Proof. vm_compute. repeat split. Qed.

(** C2, refuted as stated.  A tensor with a row that sums to 0.9 is not
    rejected for its row: passed to the constructor it meets the same
    [TypeError] as the canonical tensor does, which is raised when the
    arguments are bound, before any statement of the body could inspect a
    row. *)
Lemma construction_does_not_validate :
  rows_are_distributions short_row = false /\
  @SimpleMDP_new Lcg.t [("transition"%string, short_row)]
  = inl (TypeError "transition") /\
  @SimpleMDP_new Lcg.t
    [("transition"%string, transition (@__init__ Lcg.t))]
  = inl (TypeError "transition") /\
  rows_are_distributions (transition (@__init__ Lcg.t)) = true.
Proof. repeat split. Qed.

(** The engine after [reset()] and a [step(0)] that landed in S2 is
    reachable; the witnesses below run on it. *)
Lemma ended_reachable :
  reachable Lcg.next_uint64 Lcg.seeded
    (after Lcg.next_uint64 Lcg.seeded
       (after Lcg.next_uint64 Lcg.seeded __init__ (Reset None false))
       (Step Lcg.high 0)).
Proof. apply reachable_call, reachable_call, reachable_init. Qed.

Lemma step_before_reset_witness :
  state (@__init__ Lcg.t) = None /\
  step Lcg.next_uint64 __init__ Lcg.high 0 = (__init__, [], inl NotResetError).
Proof.
  split; [reflexivity|].
  exact (proj2 (step_before_reset Lcg.t Lcg.next_uint64 __init__ Lcg.high 0
                  eq_refl) eq_refl).
Defined.

Lemma step_rejects_action_outside_space_witness :
  let started := fst (reset Lcg.seeded __init__ None false) in
  step Lcg.next_uint64 started Lcg.high 2
  = (started, [], inl InvalidActionError).
Proof.
  intros started.
  exact (step_rejects_action_outside_space Lcg.t Lcg.next_uint64 Lcg.seeded
           started Lcg.high 2
           (reachable_call Lcg.t Lcg.next_uint64 Lcg.seeded __init__
              (Reset None false)
              (reachable_init Lcg.t Lcg.next_uint64 Lcg.seeded))
           (or_intror (Z.le_refl 2))).
Defined.

Lemma terminal_state_absorbing_witness :
  let ended :=
    after Lcg.next_uint64 Lcg.seeded
      (after Lcg.next_uint64 Lcg.seeded __init__ (Reset None false))
      (Step Lcg.high 0) in
  let actions := [0; 1; 5; 0] in
  state ended = Some 1 /\
  (getitem (transition ended) 1 = Some [[0.0; 1.0]; [0.0; 1.0]]%Q /\
   state (fst (run Lcg.next_uint64 ended Lcg.high actions)) = Some 1 /\
   map snd (snd (run Lcg.next_uint64 ended Lcg.high actions))
   = map terminal_outcome actions) /\
  map terminal_outcome actions
  = [inr (1, 0.0%Q, true, []); inr (1, 0.0%Q, true, []);
     inl InvalidActionError; inr (1, 0.0%Q, true, [])].
Proof.
  intros ended actions. split; [reflexivity|]. split; [|reflexivity].
  exact (terminal_state_absorbing Lcg.t Lcg.next_uint64 Lcg.seeded
           ended Lcg.high actions ended_reachable eq_refl).
Defined.

Lemma post_terminal_steps_witness :
  let ended :=
    after Lcg.next_uint64 Lcg.seeded
      (after Lcg.next_uint64 Lcg.seeded __init__ (Reset None false))
      (Step Lcg.high 0) in
  let r :=
    run Lcg.next_uint64 (fst (reset Lcg.seeded ended (Some 4%N) false))
      Lcg.high [0; 0; 0; 1; 0; 1] in
  (steps_beyond_done (fst r) =
   if count_done (snd r) =? 0 then None else Some (count_done (snd r) - 1)) /\
  steps_beyond_done ended = Some 0 /\
  count_done (snd r) = 4 /\
  steps_beyond_done (fst r) = Some 3.
Proof.
  intros ended r. split.
  - exact (proj2 (post_terminal_steps Lcg.t Lcg.next_uint64 Lcg.seeded ended
                    (Some 4%N) false Lcg.high [0; 0; 0; 1; 0; 1] 0
                    ended_reachable)).
  - vm_compute. repeat split.
Defined.

Lemma warning_once_per_episode_witness :
  let ended :=
    after Lcg.next_uint64 Lcg.seeded
      (after Lcg.next_uint64 Lcg.seeded __init__ (Reset None false))
      (Step Lcg.high 0) in
  let outs :=
    snd (run Lcg.next_uint64 (fst (reset Lcg.seeded ended (Some 4%N) false))
           Lcg.high [0; 0; 0; 1; 0; 1]) in
  (map fst outs = second_done_log 0 outs /\
   logged outs =
   (if 2 <=? count_done outs then [steps_beyond_done_msg] else [])) /\
  map fst outs = [[]; []; []; [steps_beyond_done_msg]; []; []] /\
  logged outs = [steps_beyond_done_msg].
Proof.
  intros ended outs. split.
  - split.
    + exact (proj1 (warning_once_per_episode Lcg.t Lcg.next_uint64 Lcg.seeded
                      ended (Some 4%N) false Lcg.high [0; 0; 0; 1; 0; 1] 0
                      ended_reachable)).
    + exact (proj1 (proj2 (warning_once_per_episode Lcg.t Lcg.next_uint64
                             Lcg.seeded ended (Some 4%N) false Lcg.high
                             [0; 0; 0; 1; 0; 1] 0 ended_reachable))).
  - vm_compute. split; reflexivity.
Defined.

Lemma same_seed_same_episode_witness :
  let ended :=
    after Lcg.next_uint64 Lcg.seeded
      (after Lcg.next_uint64 Lcg.seeded __init__ (Reset None false))
      (Step Lcg.high 0) in
  snd (reset Lcg.seeded __init__ (Some 4%N) false)
  = snd (reset Lcg.seeded ended (Some 4%N) false) /\
  snd (run Lcg.next_uint64 (fst (reset Lcg.seeded __init__ (Some 4%N) false))
         0 [0; 0; 0; 1; 0; 1])
  = snd (run Lcg.next_uint64 (fst (reset Lcg.seeded ended (Some 4%N) false))
           Lcg.high [0; 0; 0; 1; 0; 1]).
Proof.
  intros ended.
  exact (same_seed_same_episode Lcg.t Lcg.next_uint64 Lcg.seeded
           __init__ ended 4%N false 0 Lcg.high [0; 0; 0; 1; 0; 1]
           (reachable_init Lcg.t Lcg.next_uint64 Lcg.seeded)
           ended_reachable).
Defined.

(** ** Witnesses of the further properties *)

Lemma started_reachable :
  reachable Lcg.next_uint64 Lcg.seeded
    (fst (reset Lcg.seeded __init__ None false)).
Proof.
  exact (reachable_call Lcg.t Lcg.next_uint64 Lcg.seeded __init__
           (Reset None false)
           (reachable_init Lcg.t Lcg.next_uint64 Lcg.seeded)).
Qed.

Lemma started_lands_in_S2 :
  snd (step Lcg.next_uint64 (fst (reset Lcg.seeded __init__ None false))
         Lcg.high 0)
  = inr (1, 0.0%Q, true, []).
Proof. vm_compute. reflexivity. Qed.

Lemma step_reward_of_new_state_witness :
  let started := fst (reset Lcg.seeded __init__ None false) in
  snd (step Lcg.next_uint64 started Lcg.high 0) = inr (1, 0.0%Q, true, []) /\
  getitem2 (reward started) 1 0 = Some 0.0%Q.
Proof.
  intros started. split; [exact started_lands_in_S2|].
  exact (step_reward_of_new_state Lcg.t Lcg.next_uint64 Lcg.seeded started
           Lcg.high 0 1 0.0%Q true [] started_reachable started_lands_in_S2).
Defined.


Lemma step_result_consistent_witness :
  let started := fst (reset Lcg.seeded __init__ None false) in
  snd (step Lcg.next_uint64 started Lcg.high 0) = inr (1, 0.0%Q, true, []) /\
  (state (fst (fst (step Lcg.next_uint64 started Lcg.high 0))) = Some 1 /\
   contains (observation_space Lcg.t started) 1 = true /\
   true = (1 =? 1) /\
   @nil (string * string) = []).
Proof.
  intros started. split; [exact started_lands_in_S2|].
  exact (step_result_consistent Lcg.t Lcg.next_uint64 Lcg.seeded started
           Lcg.high 0 1 0.0%Q true [] started_reachable started_lands_in_S2).
Defined.

Lemma episode_shape_witness :
  let ended :=
    after Lcg.next_uint64 Lcg.seeded
      (after Lcg.next_uint64 Lcg.seeded __init__ (Reset None false))
      (Step Lcg.high 0) in
  well_shaped false [0; 5; 0; 1; 0; 1]
    (snd (run Lcg.next_uint64 (fst (reset Lcg.seeded ended (Some 4%N) false))
            Lcg.high [0; 5; 0; 1; 0; 1]))
  = true.
Proof.
  intros ended.
  exact (episode_shape Lcg.t Lcg.next_uint64 Lcg.seeded ended (Some 4%N)
           false Lcg.high [0; 5; 0; 1; 0; 1] ended_reachable).
Defined.

Lemma step_draws_once_witness :
  let started := fst (reset Lcg.seeded __init__ None false) in
  _np_random (fst (fst (step Lcg.next_uint64 started Lcg.high 0)))
  = match snd (step Lcg.next_uint64 started Lcg.high 0) with
    | inr _ => Some (snd (Lcg.next_uint64 (np_random started Lcg.high)))
    | inl _ => _np_random started
    end.
Proof.
  intros started.
  exact (step_draws_once Lcg.t Lcg.next_uint64 Lcg.seeded started Lcg.high 0
           started_reachable).
Defined.


Lemma rejected_calls_are_transparent_witness :
  let started := fst (reset Lcg.seeded __init__ None false) in
  fst (run Lcg.next_uint64 started Lcg.high
         (filter (contains (Discrete 2)) [0; 5; 1; -1; 0]))
  = fst (run Lcg.next_uint64 started Lcg.high [0; 5; 1; -1; 0]) /\
  snd (run Lcg.next_uint64 started Lcg.high
         (filter (contains (Discrete 2)) [0; 5; 1; -1; 0]))
  = filter (fun o => negb (is_rejected o))
      (snd (run Lcg.next_uint64 started Lcg.high [0; 5; 1; -1; 0])).
Proof.
  intros started.
  exact (rejected_calls_are_transparent Lcg.t Lcg.next_uint64 Lcg.seeded
           started Lcg.high [0; 5; 1; -1; 0] started_reachable).
Defined.

Lemma unstarted_until_reset_witness :
  state (@__init__ Lcg.t) = None /\
  existsb is_reset [Step Lcg.high 0; Render "human"; Step Lcg.high 7] = false /\
  after_all Lcg.next_uint64 Lcg.seeded __init__
    [Step Lcg.high 0; Render "human"; Step Lcg.high 7]
  = __init__.
Proof.
  split; [reflexivity|]. split; [reflexivity|].
  exact (unstarted_until_reset Lcg.t Lcg.next_uint64 Lcg.seeded __init__
           [Step Lcg.high 0; Render "human"; Step Lcg.high 7]
           eq_refl eq_refl).
Defined.

Lemma counter_set_iff_terminal_witness :
  let ended :=
    after Lcg.next_uint64 Lcg.seeded
      (after Lcg.next_uint64 Lcg.seeded __init__ (Reset None false))
      (Step Lcg.high 0) in
  (state ended = None \/ state ended = Some 0 \/ state ended = Some 1) /\
  (steps_beyond_done ended <> None <-> state ended = Some 1) /\
  (forall n, steps_beyond_done ended = Some n -> 0 <= n).
Proof.
  intros ended.
  exact (counter_set_iff_terminal Lcg.t Lcg.next_uint64 Lcg.seeded ended
           ended_reachable).
Defined.

Lemma step_within_support_of_P_witness :
  let started := fst (reset Lcg.seeded __init__ None false) in
  state started = Some 0 /\
  snd (step Lcg.next_uint64 started Lcg.high 0) = inr (1, 0.0%Q, true, []) /\
  exists entries prob rw,
    P_lookup (P started) 0 0 = Some entries /\
    In (prob, 1, rw, true) entries /\
    (0 < prob)%Q.
Proof.
  intros started. split; [reflexivity|].
  split; [exact started_lands_in_S2|].
  exact (step_within_support_of_P Lcg.t Lcg.next_uint64 Lcg.seeded started
           Lcg.high 0 0 1 0.0%Q true [] started_reachable eq_refl
           started_lands_in_S2).
Defined.
